(** * Verification of [src/todo-config.ts]

    The module resolves the [daysToDecay] thresholds of a project from three
    ranked sources (the [package.json] manifest, two environment variables,
    the options passed by the caller), applies a default and checks that
    [warn] is below [error].

    The development is a shallow embedding of the module:
    - JavaScript data is the inductive type [JsValue]; objects are finite
      maps from property names to values, so that a property holding
      [undefined] and a missing property are different things, as they are
      for [Object.assign] and [Object.keys];
    - objects that the code creates or receives by reference live in a heap
      of a [World], next to the module loader's cache, the files the loader
      can read and the process environment;
    - the functions of the module are computations in a state-and-exception
      monad [M] over that world, written statement by statement. *)

From Stdlib Require Import Ascii QArith SpecFloat.
From stdpp Require Import gmap strings list fin_maps pretty.

Open Scope string_scope.
Open Scope Z_scope.

(** ** Numbers

    A JavaScript Number is an IEEE-754 binary64 value. Every finite binary64
    value is a rational, and the comparison operators compare those rationals
    exactly, so a Number is modelled by its mathematical value: [NaN], an
    infinity or a rational. The sign of zero is not tracked: no operation
    used by the module ([typeof], [>=], [Number.isInteger], template
    substitution) tells [-0] from [+0]. *)

Inductive number :=
| NaN
| Infinity (negative : bool)
| Finite (q : Q).

Definition of_Z (z : Z) : number := Finite (inject_Z z).

(** [Number::lessThan (x, y)] of ECMAScript, step by step; [None] is the
    [undefined] answer given when an operand is [NaN]. *)
Definition Number_lessThan (x y : number) : option bool :=
  match x, y with
  | NaN, _ => None
  | _, NaN => None
  | Infinity false, _ => Some false
  | _, Infinity false => Some true
  | _, Infinity true => Some false
  | Infinity true, _ => Some true
  | Finite p, Finite q => Some (negb (Qle_bool q p))
  end.

(** [x < y] on Numbers. *)
Definition number_lt (x y : number) : bool :=
  match Number_lessThan x y with
  | Some true => true
  | _ => false
  end.

(** [x >= y] on Numbers: true when [x < y] is [false], false when it is
    [true] or [undefined]. *)
Definition number_ge (x y : number) : bool :=
  match Number_lessThan x y with
  | Some false => true
  | _ => false
  end.

Definition is_NaN (x : number) : bool :=
  match x with NaN => true | _ => false end.

(** [Number.isInteger] on a Number: finite with an integral value. *)
Definition number_is_integer (x : number) : bool :=
  match x with
  | Finite q => (Qnum q mod Zpos (Qden q) =? 0)%Z
  | _ => false
  end.

(** The Number for a mathematical integer (written 𝔽 in ECMAScript):
    round to nearest, ties to even, on a 53-bit significand; a magnitude
    that rounds to [2^1024] or more becomes an infinity. *)
Definition to_Number (z : Z) : number :=
  let a := Z.abs z in
  let d := Z.log2 a + 1 - 53 in
  if (d <=? 0)%Z then of_Z z
  else
    let q := a / 2 ^ d in
    let r := a mod 2 ^ d in
    let q' :=
      match 2 * r ?= 2 ^ d with
      | Lt => q
      | Gt => q + 1
      | Eq => if Z.even q then q else q + 1
      end in
    if (2 ^ 1024 <=? q' * 2 ^ d)%Z then Infinity (z <? 0)%Z
    else of_Z (Z.sgn z * (q' * 2 ^ d)).

(** ** Strings and [Number.parseInt]

    A string is a sequence of code units, each below 256. *)

(** White space and line terminators that [parseInt] skips. *)
Definition is_white_space (c : ascii) : bool :=
  let n := N_of_ascii c in
  ((n =? 9) || (n =? 10) || (n =? 11) || (n =? 12) || (n =? 13)
   || (n =? 32) || (n =? 160))%N.

Fixpoint trim_start (s : string) : string :=
  match s with
  | String c r => if is_white_space c then trim_start r else s
  | EmptyString => EmptyString
  end.

Definition digit_value (c : ascii) : option Z :=
  let n := Z.of_N (N_of_ascii c) in
  if ((48 <=? n) && (n <=? 57))%Z then Some (n - 48) else None.

(** The values of the longest prefix of decimal digits. *)
Fixpoint digits_prefix (s : string) : list Z :=
  match s with
  | String c r =>
      match digit_value c with
      | Some d => d :: digits_prefix r
      | None => []
      end
  | EmptyString => []
  end.

Definition mathematical_value (ds : list Z) : Z :=
  foldl (λ acc d, 10 * acc + d) 0 ds.

(** The sign that [parseInt] reads, and the string after it: a leading
    [-] gives -1, and a leading [+] or [-] is removed. *)
Definition split_sign (s : string) : Z * string :=
  match s with
  | String c r =>
      if Ascii.eqb c "-" then (-1, r)
      else if Ascii.eqb c "+" then (1, r)
      else (1, s)
  | EmptyString => (1, s)
  end.

(** [Number.parseInt (input, 10)]: skip leading white space, read an
    optional sign, read the longest prefix of decimal digits; no digit gives
    [NaN], otherwise the Number of the signed value. *)
Definition Number_parseInt (input : string) : number :=
  let '(sign, s) := split_sign (trim_start input) in
  match digits_prefix s with
  | [] => NaN
  | ds => to_Number (sign * mathematical_value ds)
  end.

(** ** Values *)

#[warnings="-register-all"]
Inductive JsValue :=
| JUndefined
| JNull
| JBool (b : bool)
| JNum (n : number)
| JStr (s : string)
| JArr (elems : list JsValue)
| JObj (props : gmap string JsValue).

Inductive TypeTag :=
| T_undefined | T_object | T_boolean | T_number | T_string.

(** [typeof v]. *)
Definition typeof (v : JsValue) : TypeTag :=
  match v with
  | JUndefined => T_undefined
  | JNull => T_object
  | JBool _ => T_boolean
  | JNum _ => T_number
  | JStr _ => T_string
  | JArr _ => T_object
  | JObj _ => T_object
  end.

Definition TypeTag_eqb (a b : TypeTag) : bool :=
  match a, b with
  | T_undefined, T_undefined | T_object, T_object | T_boolean, T_boolean
  | T_number, T_number | T_string, T_string => true
  | _, _ => false
  end.

(** [Number.isInteger (v)]: false for everything that is not a Number. *)
Definition Number_isInteger (v : JsValue) : bool :=
  match v with
  | JNum n => number_is_integer n
  | _ => false
  end.

Fixpoint code_units (s : string) : list string :=
  match s with
  | String c r => String c EmptyString :: code_units r
  | EmptyString => []
  end.

Definition indexed (l : list JsValue) : gmap string JsValue :=
  list_to_map (imap (λ i v, (pretty i, v)) l).

(** The own enumerable properties that [Object.assign] copies out of a
    source: nothing for [undefined], [null], booleans and numbers (the first
    two are skipped, the others are wrapped in objects without own
    properties), the indexed code units of a string, the indexed elements of
    an array, the properties of an object. *)
Definition own_props (v : JsValue) : gmap string JsValue :=
  match v with
  | JUndefined | JNull | JBool _ | JNum _ => ∅
  | JStr s => indexed (JStr <$> code_units s)
  | JArr l => indexed l
  | JObj m => m
  end.

(** [v?.k] for a property name [k] that no prototype defines: [undefined]
    when [v] is [undefined] or [null] (the chain is cut) and when [v] has no
    own property [k]. The names used by the module ([lintTodo],
    [daysToDecay]) are neither indices nor [length]. *)
Definition optional_get (v : JsValue) (k : string) : JsValue :=
  match v with
  | JObj m => default JUndefined (m !! k)
  | _ => JUndefined
  end.

(** [ToBoolean v], the truthiness tested by [if (v)]. *)
Definition truthy (v : JsValue) : bool :=
  match v with
  | JUndefined | JNull => false
  | JBool b => b
  | JNum NaN => false
  | JNum (Infinity _) => true
  | JNum (Finite q) => negb (Qnum q =? 0)%Z
  | JStr s => negb (String.eqb s "")
  | JArr _ | JObj _ => true
  end.

(** [a >= b]. The module evaluates it on two Numbers only: the two [typeof]
    tests come first in the conjunction. *)
Definition ge (a b : JsValue) : bool :=
  match a, b with
  | JNum x, JNum y => number_ge x y
  | _, _ => false
  end.

(** ** The world

    - [heap]: the objects that exist by reference, each a finite map of own
      properties;
    - [module_cache]: [require.cache], the exports of the modules that were
      loaded, by file name;
    - [files]: what loading a file would give: nothing at a name with no
      file, [Malformed] for a file that does not parse, its JSON value
      otherwise;
    - [process_env]: [process.env], whose values are strings. *)

Inductive ManifestFile :=
| Malformed
| Json (exports : JsValue).

Record World := mkWorld {
  heap : gmap positive (gmap string JsValue);
  module_cache : gmap string JsValue;
  files : gmap string ManifestFile;
  process_env : gmap string string;
}.

Definition set_heap (h : gmap positive (gmap string JsValue)) (w : World) : World :=
  mkWorld h (module_cache w) (files w) (process_env w).

Definition set_module_cache (c : gmap string JsValue) (w : World) : World :=
  mkWorld (heap w) c (files w) (process_env w).

(** The own properties of the object at a location. *)
Definition props_at (w : World) (l : positive) : gmap string JsValue :=
  default ∅ (heap w !! l).

(** ** Exceptions and the monad

    A template literal is kept as its parts: the literal chunks and the
    substituted values, in order. *)

Inductive TemplatePart :=
| Chars (s : string)
| Subst (v : JsValue).

Inductive Exn :=
| LoadFailure (request : string)
| Error (message : list TemplatePart).

Inductive Outcome (A : Type) :=
| Return (a : A)
| Throw (e : Exn).
Arguments Return {A} a.
Arguments Throw {A} e.

Definition M (A : Type) : Type := World → Outcome A * World.

Definition ret {A} (a : A) : M A := λ w, (Return a, w).

Definition bind {A B} (m : M A) (k : A → M B) : M B := λ w,
  match m w with
  | (Return a, w') => k a w'
  | (Throw e, w') => (Throw e, w')
  end.

Definition throw {A} (e : Exn) : M A := λ w, (Throw e, w).

(** [try { m } catch { h }]. *)
Definition try_catch {A} (m : M A) (h : Exn → M A) : M A := λ w,
  match m w with
  | (Return a, w') => (Return a, w')
  | (Throw e, w') => h e w'
  end.

Notation "'let*' x ':=' m 'in' k" := (bind m (λ x, k))
  (at level 10, x binder, k at level 200, only parsing).

(** ** Primitive operations *)

(** An object literal: a new object at an unused location. *)
Definition new_object (o : gmap string JsValue) : M positive := λ w,
  let l := fresh (dom (heap w)) in
  (Return l, set_heap (<[l := o]> (heap w)) w).

(** [obj.k] on an object of the heap: an absent property reads as
    [undefined]. *)
Definition get_prop (l : positive) (k : string) : M JsValue := λ w,
  (Return (default JUndefined (props_at w l !! k)), w).

(** [obj.k = v]. *)
Definition set_prop (l : positive) (k : string) (v : JsValue) : M () := λ w,
  (Return (), set_heap (<[l := <[k := v]> (props_at w l)]> (heap w)) w).

(** [Object.keys (obj)]. *)
Definition Object_keys (l : positive) : M (list string) := λ w,
  (Return ((map_to_list (props_at w l)).*1), w).

(** A source of [Object.assign]: a value, or an object by reference. *)
Inductive Source :=
| SVal (v : JsValue)
| SRef (l : positive).

Definition source_props (w : World) (s : Source) : gmap string JsValue :=
  match s with
  | SVal v => own_props v
  | SRef l => props_at w l
  end.

(** One round of [Object.assign]: every own property of the source is set
    on the target. *)
Definition copy_props (target : positive) (s : Source) : M () := λ w,
  let o := map_fold (λ k v acc, <[k := v]> acc) (props_at w target) (source_props w s) in
  (Return (), set_heap (<[target := o]> (heap w)) w).

Fixpoint copy_all (target : positive) (sources : list Source) : M () :=
  match sources with
  | [] => ret ()
  | s :: rest => let* _ := copy_props target s in copy_all target rest
  end.

(** [Object.assign (target, ...sources)]: the sources are copied in order
    and the target is returned. *)
Definition Object_assign (target : positive) (sources : list Source) : M positive :=
  let* _ := copy_all target sources in ret target.

(** [process.env[name]]. *)
Definition process_env_get (name : string) : M (option string) := λ w,
  (Return (process_env w !! name), w).

Definition env_value (v : option string) : JsValue :=
  match v with
  | Some s => JStr s
  | None => JUndefined
  end.

(** [require (request)]: a module that was loaded is served from the cache;
    otherwise the file is loaded, and cached when that succeeds; a missing
    or malformed file throws and leaves no cache entry. *)
Definition require (request : string) : M JsValue := λ w,
  match module_cache w !! request with
  | Some exports => (Return exports, w)
  | None =>
      match files w !! request with
      | Some (Json exports) =>
          (Return exports, set_module_cache (<[request := exports]> (module_cache w)) w)
      | _ => (Throw (LoadFailure request), w)
      end
  end.

(** ** The module *)

Definition default_daysToDecay : gmap string JsValue :=
  <["warn" := JNum (of_Z 30)]> (<["error" := JNum (of_Z 60)]> ∅).

Definition invalid_values_message (warn error : JsValue) : list TemplatePart :=
  [ Chars "The provided todo configuration contains invalid values. The `warn` value (";
    Subst warn;
    Chars ") must be less than the `error` value (";
    Subst error;
    Chars ")." ].



Section TodoConfig.

(** [path.join] of Node. *)
Variable join : string → string → string.

(** Lines 90-95. The environment is read twice, as in the source;
    [parseInt (undefined, 10)] is [NaN]. *)
Definition getEnvVar (name : string) : M JsValue :=
  let* c := process_env_get name in
  if truthy (env_value c) then
    let* v := process_env_get name in
    match v with
    | Some s => ret (JNum (Number_parseInt s))
    | None => ret (JNum NaN)
    end
  else ret JUndefined.

(** Lines 73-88. *)
Definition getFromEnvVars : M positive :=
  let* config := new_object ∅ in
  let* warn := getEnvVar "TODO_DAYS_TO_WARN" in
  let* error := getEnvVar "TODO_DAYS_TO_ERROR" in
  let* _ := (if Number_isInteger warn then set_prop config "warn" warn else ret ()) in
  let* _ := (if Number_isInteger error then set_prop config "error" error else ret ()) in
  ret config.

(** Lines 62-71. *)
Definition getFromPackageJson (basePath : string) : M JsValue :=
  let* pkg := try_catch (require (join basePath "package.json")) (λ _, ret JUndefined) in
  ret (optional_get (optional_get pkg "lintTodo") "daysToDecay").

(** Lines 36-38: the three sources are read and merged into a new object.
    The manifest's configuration is kept for the test of line 42. *)
Definition mergedConfig (baseDir : string) (todoConfig : positive)
  : M (JsValue * positive) :=
  let* daysToDecayPackageConfig := getFromPackageJson baseDir in
  let* daysToDecayEnvVars := getFromEnvVars in
  let* target := new_object ∅ in
  let* merged := Object_assign target
    [SVal daysToDecayPackageConfig; SRef daysToDecayEnvVars; SRef todoConfig] in
  ret (daysToDecayPackageConfig, merged).

(** Lines 42-47. *)
Definition applyDefault (daysToDecayPackageConfig : JsValue) (merged : positive)
  : M positive :=
  let* keys := Object_keys merged in
  if (length keys =? 0)%nat
     && TypeTag_eqb (typeof daysToDecayPackageConfig) T_undefined
  then new_object default_daysToDecay
  else ret merged.

(** Lines 49-59. *)
Definition checkOrder (merged : positive) : M positive :=
  let* warn := get_prop merged "warn" in
  let* error := get_prop merged "error" in
  if TypeTag_eqb (typeof warn) T_number
     && TypeTag_eqb (typeof error) T_number
     && ge warn error
  then throw (Error (invalid_values_message warn error))
  else ret merged.

(** Lines 32-60. An omitted [todoConfig] is [None]; its default value [{}]
    is a new object. *)
Definition getTodoConfig (baseDir : string) (todoConfig : option positive)
  : M positive :=
  let* todoConfig := match todoConfig with
                     | Some l => ret l
                     | None => new_object ∅
                     end in
  let* '(daysToDecayPackageConfig, merged) := mergedConfig baseDir todoConfig in
  let* merged := applyDefault daysToDecayPackageConfig merged in
  checkOrder merged.

End TodoConfig.

(** ** Descriptions of the sources

    What each source contributes, read off the world without running
    anything. The theorems below relate the computations to them. *)

(** What [require] yields for a request: the cached exports if the module
    was loaded, else the parsed file, else nothing (it throws). *)
Definition loader_view (w : World) (request : string) : option JsValue :=
  match module_cache w !! request with
  | Some exports => Some exports
  | None =>
      match files w !! request with
      | Some (Json exports) => Some exports
      | _ => None
      end
  end.

(** The world after [require (request)]. *)
Definition loaded (request : string) (w : World) : World :=
  match module_cache w !! request, files w !! request with
  | None, Some (Json exports) =>
      set_module_cache (<[request := exports]> (module_cache w)) w
  | _, _ => w
  end.

(** The value an environment variable contributes: the parsed Number when
    the variable is set to a non-empty string, [undefined] otherwise. *)
Definition env_var (w : World) (name : string) : JsValue :=
  match process_env w !! name with
  | Some s => if String.eqb s "" then JUndefined else JNum (Number_parseInt s)
  | None => JUndefined
  end.

Definition with_integer (k : string) (v : JsValue) (o : gmap string JsValue)
  : gmap string JsValue :=
  if Number_isInteger v then <[k := v]> o else o.

(** The partial configuration of the environment. *)
Definition env_partial (w : World) : gmap string JsValue :=
  with_integer "error" (env_var w "TODO_DAYS_TO_ERROR")
    (with_integer "warn" (env_var w "TODO_DAYS_TO_WARN") ∅).

(** The properties of the caller's options: none when they are omitted. *)
Definition override_props (w : World) (todoConfig : option positive)
  : gmap string JsValue :=
  match todoConfig with
  | Some l => props_at w l
  | None => ∅
  end.

(** Later sources first: the union of maps prefers its left operand. *)
Definition merge3 (manifest env override : gmap string JsValue)
  : gmap string JsValue :=
  override ∪ (env ∪ manifest).

(** The configuration after the default rule. *)
Definition defaulted (manifest : JsValue) (merged : gmap string JsValue)
  : gmap string JsValue :=
  if (size merged =? 0)%nat && TypeTag_eqb (typeof manifest) T_undefined
  then default_daysToDecay
  else merged.

(** The ordering test on a configuration. *)
Definition invalid_order (o : gmap string JsValue) : bool :=
  let warn := default JUndefined (o !! "warn") in
  let error := default JUndefined (o !! "error") in
  TypeTag_eqb (typeof warn) T_number
  && TypeTag_eqb (typeof error) T_number
  && ge warn error.

(** [w'] is [w] after a call: the objects of [w] are as they were, the files
    and the environment are the same, and [require] yields what it
    yielded. *)
Record extends (w w' : World) : Prop := mkExtends {
  ext_heap : ∀ l o, heap w !! l = Some o → heap w' !! l = Some o;
  ext_files : files w' = files w;
  ext_env : process_env w' = process_env w;
  ext_loader : ∀ request, loader_view w' request = loader_view w request;
}.

Section TodoConfigSpec.

Variable join : string → string → string.

(** The manifest's configuration: [pkg?.lintTodo?.daysToDecay] of what
    [require] yields, [undefined] when it yields nothing. *)
Definition manifest_config (w : World) (baseDir : string) : JsValue :=
  match loader_view w (join baseDir "package.json") with
  | Some pkg => optional_get (optional_get pkg "lintTodo") "daysToDecay"
  | None => JUndefined
  end.

(** The configuration that [getTodoConfig] validates. *)
Definition final_config (w : World) (baseDir : string) (todoConfig : option positive)
  : gmap string JsValue :=
  defaulted (manifest_config w baseDir)
    (merge3 (own_props (manifest_config w baseDir)) (env_partial w)
       (override_props w todoConfig)).

End TodoConfigSpec.

(** ** Parsing, declaratively *)

Definition is_digit (c : ascii) : bool :=
  match digit_value c with Some _ => true | None => false end.







(** The options of a call exist: a reference handed in by the caller points
    to an object of the heap. *)
Definition allocated (w : World) (todoConfig : option positive) : Prop :=
  match todoConfig with
  | Some l => is_Some (heap w !! l)
  | None => True
  end.

(** What a call gives back, by value: the properties of the returned
    object, or the exception. *)
Definition result_of (r : Outcome positive * World) : Outcome (gmap string JsValue) :=
  match r.1 with
  | Return l => Return (props_at r.2 l)
  | Throw e => Throw e
  end.

(** Modelled from the spec: the type [DaysToDecay] of [./types], which is
    imported by the module but is not among its sources. The spec describes
    it as "a record with two optional integer fields", [warn] and [error]:
    a field that is there holds an integer. *)
Definition DaysToDecay (o : gmap string JsValue) : Prop :=
  ∀ k v, k = "warn" ∨ k = "error" → o !! k = Some v →
         ∃ n, v = JNum n ∧ number_is_integer n = true.

(** ** Sample worlds *)

Definition posix_join (a b : string) : string := a +:+ "/" +:+ b.

Definition package_json (daysToDecay : JsValue) : JsValue :=
  JObj {[ "name" := JStr "app";
          "lintTodo" := JObj {[ "daysToDecay" := daysToDecay ]} ]}.

Definition project (options : gmap string JsValue) (manifest : option JsValue)
    (env : gmap string string) : World :=
  mkWorld {[ 1%positive := options ]} ∅
    (match manifest with
     | Some d => {[ "/proj/package.json" := Json (package_json d) ]}
     | None => ∅
     end)
    env.


(** The mathematical value of a binary64 datum of the Standard Library's
    specification of IEEE-754, and the comparison of [to_Number] with its
    rounding [binary_normalize 53 1024]. *)
Definition of_spec_float (f : spec_float) : option Q :=
  match f with
  | S754_zero _ => Some (inject_Z 0)
  | S754_infinity _ | S754_nan => None
  | S754_finite s m e =>
      let v := if (0 <=? e)%Z then inject_Z (Zpos m * 2 ^ e)
               else Qmake (Zpos m) (Z.to_pos (2 ^ (- e))) in
      Some (if s then Qopp v else v)
  end.

Definition agrees_with_binary64 (z : Z) : bool :=
  match to_Number z, binary_normalize 53 1024 z 0 false with
  | Finite a, f =>
      match of_spec_float f with Some b => Qeq_bool a b | None => false end
  | Infinity a, S754_infinity b => Bool.eqb a b
  | _, _ => false
  end.

(** ** Worlds that differ, and computations that write to the heap only *)

Definition set_files (f : gmap string ManifestFile) (w : World) : World :=
  mkWorld (heap w) (module_cache w) f (process_env w).

Definition set_process_env (e : gmap string string) (w : World) : World :=
  mkWorld (heap w) (module_cache w) (files w) e.

(** A computation whose only effect on the world is on the heap. *)
Definition only_heap {A} (m : M A) : Prop :=
  ∀ w, ∃ h, (m w).2 = set_heap h w.

(** The value that the last of the three sources having a property gives
    it. *)
Definition last_of (manifest env override : gmap string JsValue) (k : string)
  : option JsValue :=
  match override !! k with
  | Some v => Some v
  | None => match env !! k with
            | Some v => Some v
            | None => manifest !! k
            end
  end.

(** ** Facts about numbers *)

Lemma number_ge_false_lt (x y : number) :
  is_NaN x = false → is_NaN y = false →
  number_ge x y = false → number_lt x y = true.
Proof.
  unfold number_ge, number_lt.
  destruct x as [|[]|p], y as [|[]|q]; simpl; try congruence.
  destruct (Qle_bool q p); simpl; congruence.
Qed.

Lemma number_is_integer_not_NaN (x : number) :
  number_is_integer x = true → is_NaN x = false.
Proof. destruct x; simpl; congruence. Qed.


Lemma of_Z_is_integer (z : Z) : number_is_integer (of_Z z) = true.
Proof. simpl. rewrite Z.mod_1_r. reflexivity. Qed.





(** ** Facts about the primitives *)

Lemma map_fold_insert_union (b m : gmap string JsValue) :
  map_fold (λ k v acc, <[k := v]> acc) b m = m ∪ b.
Proof.
  apply (map_fold_weak_ind (λ r m', r = m' ∪ b)).
  - by rewrite (left_id_L ∅ (∪)).
  - intros i x m' r _ ->. by rewrite insert_union_l.
Qed.

Lemma fresh_heap_None (h : gmap positive (gmap string JsValue)) :
  h !! fresh (dom h) = None.
Proof. apply not_elem_of_dom, is_fresh. Qed.

Lemma extends_refl w : extends w w.
Proof. by split. Qed.

Lemma extends_trans w1 w2 w3 : extends w1 w2 → extends w2 w3 → extends w1 w3.
Proof.
  intros [H1 F1 E1 L1] [H2 F2 E2 L2]. split; [auto | congruence.. |].
  intros r. by rewrite L2.
Qed.

(** Allocation and writes to a new object extend the world. *)
Lemma extends_alloc w l o :
  heap w !! l = None → extends w (set_heap (<[l := o]> (heap w)) w).
Proof.
  intros Hl. split; try done. intros l' o' Hl'. simpl.
  rewrite lookup_insert_ne; [done | congruence].
Qed.

Lemma loader_view_loaded w request request' :
  loader_view (loaded request w) request' = loader_view w request'.
Proof.
  unfold loaded.
  destruct (module_cache w !! request) as [e|] eqn:Hc; [done|].
  destruct (files w !! request) as [[|e]|] eqn:Hf; try done.
  unfold loader_view; simpl.
  destruct (decide (request = request')) as [<-|Hne].
  - by rewrite lookup_insert_eq, Hc, Hf.
  - by rewrite lookup_insert_ne.
Qed.

Lemma heap_loaded w request : heap (loaded request w) = heap w.
Proof.
  unfold loaded.
  by destruct (module_cache w !! request), (files w !! request) as [[|?]|].
Qed.

Lemma files_loaded w request : files (loaded request w) = files w.
Proof.
  unfold loaded.
  by destruct (module_cache w !! request), (files w !! request) as [[|?]|].
Qed.

Lemma process_env_loaded w request :
  process_env (loaded request w) = process_env w.
Proof.
  unfold loaded.
  by destruct (module_cache w !! request), (files w !! request) as [[|?]|].
Qed.

Lemma extends_loaded w request : extends w (loaded request w).
Proof.
  split.
  - intros l o. by rewrite heap_loaded.
  - apply files_loaded.
  - apply process_env_loaded.
  - apply loader_view_loaded.
Qed.

(** [require] either returns what the loader sees or throws, and moves the
    world to [loaded]. *)
Lemma require_run request w :
  require request w =
    (match loader_view w request with
     | Some exports => Return exports
     | None => Throw (LoadFailure request)
     end, loaded request w).
Proof.
  unfold require, loader_view, loaded.
  destruct (module_cache w !! request); [done|].
  by destruct (files w !! request) as [[|?]|].
Qed.

Section Runs.

Variable join : string → string → string.

Lemma getFromPackageJson_run basePath w :
  getFromPackageJson join basePath w =
    (Return (manifest_config join w basePath),
     loaded (join basePath "package.json") w).
Proof.
  unfold getFromPackageJson, bind, try_catch, manifest_config.
  rewrite require_run.
  by destruct (loader_view w (join basePath "package.json")).
Qed.

Lemma getEnvVar_run name w :
  getEnvVar name w = (Return (env_var w name), w).
Proof.
  unfold getEnvVar, bind, process_env_get, env_var.
  destruct (process_env w !! name) as [s|] eqn:Hs; simpl; [|done].
  destruct (String.eqb s ""); simpl; [done|]. by rewrite Hs.
Qed.

Lemma getFromEnvVars_run w :
  getFromEnvVars w =
    (Return (fresh (dom (heap w))),
     set_heap (<[fresh (dom (heap w)) := env_partial w]> (heap w)) w).
Proof.
  unfold getFromEnvVars, bind, new_object.
  rewrite !getEnvVar_run.
  unfold env_partial, with_integer.
  change (env_var (set_heap ?h w) ?n) with (env_var w n).
  destruct (Number_isInteger (env_var w "TODO_DAYS_TO_WARN"));
    destruct (Number_isInteger (env_var w "TODO_DAYS_TO_ERROR"));
    unfold set_prop, ret, props_at, set_heap; simpl;
    rewrite ?lookup_insert_eq, ?insert_insert_eq; simpl;
    rewrite ?lookup_insert_eq, ?insert_insert_eq; reflexivity.
Qed.

Lemma env_partial_loaded w request :
  env_partial (loaded request w) = env_partial w.
Proof.
  unfold env_partial, env_var. by rewrite process_env_loaded.
Qed.

Lemma props_at_set_heap h w l :
  props_at (set_heap h w) l = default ∅ (h !! l).
Proof. reflexivity. Qed.

Lemma copy_props_run target s w :
  copy_props target s w =
    (Return (),
     set_heap (<[target := source_props w s ∪ props_at w target]> (heap w)) w).
Proof. unfold copy_props. by rewrite map_fold_insert_union. Qed.

Lemma mergedConfig_run baseDir todoConfig o w :
  heap w !! todoConfig = Some o →
  ∃ l w',
    mergedConfig join baseDir todoConfig w
      = (Return (manifest_config join w baseDir, l), w')
    ∧ heap w !! l = None
    ∧ heap w' !! l
      = Some (merge3 (own_props (manifest_config join w baseDir)) (env_partial w) o)
    ∧ extends w w'.
Proof.
  intros Ho.
  unfold mergedConfig, bind.
  rewrite getFromPackageJson_run, getFromEnvVars_run.
  set (w1 := loaded (join baseDir "package.json") w).
  assert (Hh1 : heap w1 = heap w) by apply heap_loaded.
  assert (He1 : env_partial w1 = env_partial w) by apply env_partial_loaded.
  assert (Hx1 : extends w w1) by apply extends_loaded.
  rewrite He1.
  set (le := fresh (dom (heap w1))).
  assert (Hle : heap w1 !! le = None) by apply fresh_heap_None.
  cbv beta iota. unfold new_object at 1. cbv beta iota zeta.
  change (heap (set_heap ?h ?x)) with h.
  set (h2 := <[le := env_partial w]> (heap w1)).
  set (lt := fresh (dom h2)).
  assert (Hlt : h2 !! lt = None) by apply fresh_heap_None.
  assert (Hlt1 : heap w1 !! lt = None).
  { unfold h2 in Hlt. apply lookup_insert_None in Hlt. tauto. }
  assert (Hne : le ≠ lt).
  { intros E. unfold h2 in Hlt. rewrite E, lookup_insert_eq in Hlt. done. }
  rewrite Hh1 in Hle, Hlt1.
  assert (Hc1 : todoConfig ≠ le) by (intros ->; congruence).
  assert (Hc2 : todoConfig ≠ lt) by (intros ->; congruence).
  unfold Object_assign, copy_all, bind.
  rewrite !copy_props_run. simpl.
  rewrite !props_at_set_heap, !insert_insert_eq.
  rewrite !lookup_insert_eq. simpl.
  rewrite !(lookup_insert_ne _ lt) by done.
  unfold h2. rewrite lookup_insert_eq, lookup_insert_ne by done.
  rewrite Hh1, Ho. simpl.
  eexists _, _. split; [reflexivity|]. split; [done|]. split.
  - simpl. rewrite lookup_insert_eq. unfold merge3.
    by rewrite (right_id_L ∅ (∪)).
  - destruct Hx1 as [_ Hf He Hl]. split; [|done..].
    intros l o' Hlo. simpl.
    rewrite !lookup_insert_ne by (intros ->; congruence). done.
Qed.

Lemma extends_fresh w w' l :
  extends w w' → heap w' !! l = None → heap w !! l = None.
Proof.
  intros [Hh _ _ _] Hl. destruct (heap w !! l) as [o|] eqn:E; [|done].
  apply Hh in E. congruence.
Qed.

Lemma extends_env_partial w w' : extends w w' → env_partial w' = env_partial w.
Proof. intros [_ _ He _]. unfold env_partial, env_var. by rewrite He. Qed.

Lemma Object_keys_length l w o :
  heap w !! l = Some o →
  ∃ keys, Object_keys l w = (Return keys, w) ∧ length keys = size o.
Proof.
  intros Hl. eexists. split; [reflexivity|].
  unfold props_at. rewrite Hl. simpl.
  by rewrite length_fmap, length_map_to_list.
Qed.

Lemma extends_manifest_config w w' baseDir :
  extends w w' → manifest_config join w' baseDir = manifest_config join w baseDir.
Proof. intros [_ _ _ Hl]. unfold manifest_config. by rewrite Hl. Qed.

Lemma applyDefault_run pkg l o w :
  heap w !! l = Some o →
  ∃ l' w',
    applyDefault pkg l w = (Return l', w')
    ∧ heap w' !! l' = Some (defaulted pkg o)
    ∧ (l' = l ∨ heap w !! l' = None)
    ∧ extends w w'.
Proof.
  intros Hl. unfold applyDefault, bind.
  destruct (Object_keys_length l w o Hl) as (keys & -> & ->).
  unfold defaulted.
  destruct ((size o =? 0)%nat && TypeTag_eqb (typeof pkg) T_undefined).
  - unfold new_object. eexists _, _. split; [reflexivity|].
    split; [simpl; by rewrite lookup_insert_eq|].
    split; [right; apply fresh_heap_None|].
    apply extends_alloc, fresh_heap_None.
  - exists l, w. split; [reflexivity|]. split; [done|].
    split; [by left | apply extends_refl].
Qed.

Lemma checkOrder_run l o w :
  heap w !! l = Some o →
  checkOrder l w =
    (if invalid_order o
     then Throw (Error (invalid_values_message
                          (default JUndefined (o !! "warn"))
                          (default JUndefined (o !! "error"))))
     else Return l, w).
Proof.
  intros Hl. unfold checkOrder, bind, get_prop, props_at, invalid_order.
  rewrite Hl. simpl.
  by destruct (TypeTag_eqb (typeof (default JUndefined (o !! "warn"))) T_number
               && TypeTag_eqb (typeof (default JUndefined (o !! "error"))) T_number
               && ge (default JUndefined (o !! "warn"))
                    (default JUndefined (o !! "error"))).
Qed.

(** The whole call, in one statement: the world is extended, and the call
    either throws the ordering error on the final configuration or returns
    a new object holding it. *)
Lemma getTodoConfig_run baseDir todoConfig w :
  allocated w todoConfig →
  ∃ w',
    extends w w'
    ∧ let final := final_config join w baseDir todoConfig in
      if invalid_order final
      then getTodoConfig join baseDir todoConfig w
           = (Throw (Error (invalid_values_message
                              (default JUndefined (final !! "warn"))
                              (default JUndefined (final !! "error")))), w')
      else ∃ l,
             getTodoConfig join baseDir todoConfig w = (Return l, w')
             ∧ heap w !! l = None
             ∧ heap w' !! l = Some final.
Proof.
  intros Halloc. unfold final_config.
  (* the default parameter *)
  assert (∃ l0 w0 o,
    match todoConfig with Some l => ret l | None => new_object ∅ end w
      = (Return l0, w0)
    ∧ heap w0 !! l0 = Some o ∧ o = override_props w todoConfig
    ∧ extends w w0) as (l0 & w0 & o & Hrun0 & Hl0 & -> & Hx0).
  { destruct todoConfig as [l|]; simpl in *.
    - destruct Halloc as [o Ho]. exists l, w, o.
      unfold props_at. rewrite Ho. by repeat split.
    - eexists _, _, ∅. split; [reflexivity|].
      split; [simpl; by rewrite lookup_insert_eq|]. split; [done|].
      apply extends_alloc, fresh_heap_None. }
  destruct (mergedConfig_run baseDir l0 _ w0 Hl0)
    as (l1 & w1 & Hrun1 & Hfresh1 & Hl1 & Hx1).
  rewrite (extends_manifest_config _ _ _ Hx0) in *.
  rewrite (extends_env_partial _ _ Hx0) in *.
  set (pkg := manifest_config join w baseDir) in *.
  set (merged := merge3 _ _ _) in *.
  destruct (applyDefault_run pkg l1 merged w1 Hl1)
    as (l2 & w2 & Hrun2 & Hl2 & Hfresh2 & Hx2).
  assert (Hrun : getTodoConfig join baseDir todoConfig w
                 = checkOrder l2 w2).
  { unfold getTodoConfig, bind. by rewrite Hrun0, Hrun1, Hrun2. }
  rewrite Hrun, (checkOrder_run _ _ _ Hl2).
  exists w2. split; [eauto using extends_trans|].
  cbv zeta. destruct (invalid_order (defaulted pkg merged)); [done|].
  exists l2. repeat split; [|done].
  apply (extends_fresh _ _ _ Hx0).
  destruct Hfresh2 as [->|Hfresh2]; [done|].
  by apply (extends_fresh _ _ _ Hx1).
Qed.

(** A call with options that pass the ordering test returns a new object
    holding the final configuration. *)
Lemma getTodoConfig_returns baseDir todoConfig o w final :
  heap w !! todoConfig = Some o →
  defaulted (manifest_config join w baseDir)
    (merge3 (own_props (manifest_config join w baseDir)) (env_partial w) o)
  = final →
  invalid_order final = false →
  ∃ l w',
    getTodoConfig join baseDir (Some todoConfig) w = (Return l, w')
    ∧ heap w' !! l = Some final.
Proof.
  intros Ho Hfinal Hvalid.
  destruct (getTodoConfig_run baseDir (Some todoConfig) w) as (w' & _ & Hrun);
    [by exists o|].
  cbv zeta in Hrun. unfold final_config, override_props, props_at in Hrun.
  rewrite Ho in Hrun. simpl in Hrun. rewrite Hfinal, Hvalid in Hrun.
  destruct Hrun as (l & Hrun & _ & Hl). eauto.
Qed.

End Runs.













Lemma lookup_merge3 (manifest env override : gmap string JsValue) k :
  merge3 manifest env override !! k =
    match override !! k with
    | Some v => Some v
    | None => match env !! k with
              | Some v => Some v
              | None => manifest !! k
              end
    end.
Proof.
  unfold merge3. rewrite !lookup_union.
  by destruct (override !! k), (env !! k), (manifest !! k).
Qed.

Lemma typeof_undefined v :
  TypeTag_eqb (typeof v) T_undefined = true ↔ v = JUndefined.
Proof. by destruct v. Qed.

Section Resolution.

Variable join : string → string → string.


Lemma invalid_order_spec (o : gmap string JsValue) :
  invalid_order o = true ↔
  ∃ a b, o !! "warn" = Some (JNum a) ∧ o !! "error" = Some (JNum b)
         ∧ number_ge a b = true.
Proof.
  unfold invalid_order. split.
  - destruct (o !! "warn") as [[]|], (o !! "error") as [[]|]; simpl;
      try discriminate. eauto.
  - intros (a & b & -> & -> & H). done.
Qed.










(** C5. The record that [getTodoConfig] returns satisfies the invariant of
    the data model: when it is a [DaysToDecay] (its fields, when there, hold
    integers) and [warn] and [error] are both there, [warn < error]. More
    generally, two Numbers in these fields never satisfy [warn >= error],
    and satisfy [warn < error] unless one of them is [NaN]. *)
Theorem returned_record_ordered baseDir todoConfig w l w' :
  allocated w todoConfig →
  getTodoConfig join baseDir todoConfig w = (Return l, w') →
  ∃ o, heap w' !! l = Some o
       ∧ (DaysToDecay o →
          ∀ a b, o !! "warn" = Some (JNum a) → o !! "error" = Some (JNum b) →
                 number_lt a b = true)
       ∧ (∀ a b, o !! "warn" = Some (JNum a) → o !! "error" = Some (JNum b) →
                 number_ge a b = false
                 ∧ (is_NaN a = false → is_NaN b = false → number_lt a b = true)).
Proof.
  intros Halloc Hret.
  destruct (getTodoConfig_run join baseDir todoConfig w Halloc) as (w2 & _ & Hrun).
  cbv zeta in Hrun.
  set (final := final_config join w baseDir todoConfig) in *.
  destruct (invalid_order final) eqn:Hinv; [congruence|].
  destruct Hrun as (l2 & Hrun & _ & Hl). rewrite Hret in Hrun.
  injection Hrun as -> ->.
  exists final. split; [done|].
  assert (Hge : ∀ a b, final !! "warn" = Some (JNum a) →
                       final !! "error" = Some (JNum b) → number_ge a b = false).
  { intros a b Ha Hb. destruct (number_ge a b) eqn:Hge; [|done].
    assert (invalid_order final = true); [|congruence].
    apply invalid_order_spec. eauto. }
  split.
  - intros Htyped a b Ha Hb.
    destruct (Htyped "warn" _ (or_introl eq_refl) Ha) as (a' & [= <-] & Hia).
    destruct (Htyped "error" _ (or_intror eq_refl) Hb) as (b' & [= <-] & Hib).
    apply number_ge_false_lt; [by apply number_is_integer_not_NaN..|]. eauto.
  - intros a b Ha Hb. split; [eauto|].
    intros Hna Hnb. apply number_ge_false_lt; eauto.
Qed.

(** What a call gives back, from the final configuration alone. *)
Lemma result_of_getTodoConfig baseDir todoConfig w :
  allocated w todoConfig →
  result_of (getTodoConfig join baseDir todoConfig w) =
    let final := final_config join w baseDir todoConfig in
    if invalid_order final
    then Throw (Error (invalid_values_message
                         (default JUndefined (final !! "warn"))
                         (default JUndefined (final !! "error"))))
    else Return final.
Proof.
  intros Halloc.
  destruct (getTodoConfig_run join baseDir todoConfig w Halloc) as (w' & _ & Hrun).
  cbv zeta in *.
  destruct (invalid_order (final_config join w baseDir todoConfig)).
  - by rewrite Hrun.
  - destruct Hrun as (l & -> & _ & Hl). unfold result_of, props_at. simpl.
    by rewrite Hl.
Qed.

Lemma env_partial_ext w1 w2 :
  process_env w1 !! "TODO_DAYS_TO_WARN" = process_env w2 !! "TODO_DAYS_TO_WARN" →
  process_env w1 !! "TODO_DAYS_TO_ERROR" = process_env w2 !! "TODO_DAYS_TO_ERROR" →
  env_partial w1 = env_partial w2.
Proof. intros Hw He. unfold env_partial, env_var. by rewrite Hw, He. Qed.

Lemma extends_allocated w w' todoConfig :
  extends w w' → allocated w todoConfig →
  allocated w' todoConfig ∧ override_props w' todoConfig = override_props w todoConfig.
Proof.
  intros Hx Ha. destruct todoConfig as [l|]; [|done]. simpl in *.
  destruct Ha as [o Ho]. pose proof (ext_heap _ _ Hx _ _ Ho) as Ho'.
  split; [eauto|]. unfold props_at. by rewrite Ho, Ho'.
Qed.


(** C7. What [getTodoConfig] gives back (the properties of the returned
    record, or the exception) is determined by its arguments, by the
    manifest as [require] presents it, by the two environment variables and
    by the properties of the caller's options: two worlds that agree on
    these give the same result, whatever else they hold. A call leaves all
    of them as they were, so doing the same call again gives the same
    result. *)
Theorem getTodoConfig_deterministic baseDir todoConfig w1 w2 :
  allocated w1 todoConfig → allocated w2 todoConfig →
  loader_view w1 (join baseDir "package.json")
  = loader_view w2 (join baseDir "package.json") →
  process_env w1 !! "TODO_DAYS_TO_WARN" = process_env w2 !! "TODO_DAYS_TO_WARN" →
  process_env w1 !! "TODO_DAYS_TO_ERROR" = process_env w2 !! "TODO_DAYS_TO_ERROR" →
  override_props w1 todoConfig = override_props w2 todoConfig →
  result_of (getTodoConfig join baseDir todoConfig w1)
  = result_of (getTodoConfig join baseDir todoConfig w2)
  ∧ (let first := getTodoConfig join baseDir todoConfig w1 in
     result_of (getTodoConfig join baseDir todoConfig first.2) = result_of first
     ∧ files first.2 = files w1
     ∧ process_env first.2 = process_env w1
     ∧ override_props first.2 todoConfig = override_props w1 todoConfig).
Proof.
  intros Ha1 Ha2 Hm Hw He Ho.
  assert (Hsame : ∀ wa wb,
    allocated wa todoConfig → allocated wb todoConfig →
    loader_view wa (join baseDir "package.json")
    = loader_view wb (join baseDir "package.json") →
    env_partial wa = env_partial wb →
    override_props wa todoConfig = override_props wb todoConfig →
    result_of (getTodoConfig join baseDir todoConfig wa)
    = result_of (getTodoConfig join baseDir todoConfig wb)).
  { intros wa wb Haa Hab Hma Hea Hoa.
    rewrite !result_of_getTodoConfig by done.
    unfold final_config, manifest_config. by rewrite Hma, Hea, Hoa. }
  split; [apply Hsame; auto using env_partial_ext|].
  destruct (getTodoConfig_run join baseDir todoConfig w1 Ha1) as (w' & Hx & Hrun).
  assert (Hw' : (getTodoConfig join baseDir todoConfig w1).2 = w').
  { cbv zeta in Hrun.
    destruct (invalid_order (final_config join w1 baseDir todoConfig)).
    - by rewrite Hrun.
    - destruct Hrun as (l & -> & _). done. }
  cbv zeta. rewrite Hw'.
  destruct (extends_allocated _ _ _ Hx Ha1) as [Ha' Ho'].
  split.
  { apply Hsame; try done.
    - apply Hx.
    - by apply extends_env_partial. }
  repeat split; try done; apply Hx.
Qed.

(** C8. A call that does not throw the ordering error returns a record: a
    location of the resulting heap, holding an object, and never
    [undefined]. The object did not exist before the call. *)
Theorem getTodoConfig_returns_record baseDir todoConfig w :
  allocated w todoConfig →
  let run := getTodoConfig join baseDir todoConfig w in
  (∀ message, run.1 ≠ Throw (Error message)) →
  ∃ l o, run.1 = Return l ∧ heap run.2 !! l = Some o ∧ heap w !! l = None.
Proof.
  intros Halloc run Hno.
  destruct (getTodoConfig_run join baseDir todoConfig w Halloc) as (w' & _ & Hrun).
  cbv zeta in Hrun. fold run in Hrun.
  destruct (invalid_order (final_config join w baseDir todoConfig)).
  - exfalso. eapply Hno. by rewrite Hrun.
  - destruct Hrun as (l & Hrun & Hfresh & Hl). rewrite Hrun. eauto.
Qed.

(** C9. [getTodoConfig] does not change the object it is given as
    [todoConfig]: after the call, whether it returned or threw, the object
    holds the properties it held. The merge of line 38 writes to an object
    that did not exist before the call, and the returned record is not the
    caller's object. *)
Theorem override_unchanged baseDir todoConfig o w r w' :
  heap w !! todoConfig = Some o →
  getTodoConfig join baseDir (Some todoConfig) w = (r, w') →
  heap w' !! todoConfig = Some o
  ∧ (∀ l, r = Return l → l ≠ todoConfig ∧ heap w !! l = None)
  ∧ (∃ manifest l w1,
       mergedConfig join baseDir todoConfig w = (Return (manifest, l), w1)
       ∧ heap w !! l = None
       ∧ heap w1 !! todoConfig = Some o).
Proof.
  intros Ho Hret.
  destruct (getTodoConfig_run join baseDir (Some todoConfig) w) as (w2 & Hx & Hrun).
  { simpl. eauto. }
  cbv zeta in Hrun.
  assert (w' = w2 ∧ ∀ l, r = Return l → heap w !! l = None) as [-> Hfresh].
  { destruct (invalid_order (final_config join w baseDir (Some todoConfig))).
    - rewrite Hret in Hrun. injection Hrun as -> ->. done.
    - destruct Hrun as (l & Hrun & Hfresh & _). rewrite Hret in Hrun.
      injection Hrun as -> ->. split; [done|]. by intros ? [= <-]. }
  split; [by apply Hx|]. split.
  - intros l Hl. split; [|by apply Hfresh]. intros ->.
    rewrite (Hfresh _ Hl) in Ho. discriminate.
  - destruct (mergedConfig_run join baseDir todoConfig o w Ho)
      as (l & w1 & Hrun1 & Hfresh1 & _ & Hx1).
    exists (manifest_config join w baseDir), l, w1.
    split; [done|]. split; [done|]. by apply Hx1.
Qed.

(** C10. When the default is applied (the merged object has no property and
    the manifest lookup yielded [undefined]), the object that replaces the
    merged one holds [{warn: 30, error: 60}], the check of lines 49-57 lets
    it through, and the call returns it: the default path never throws. *)
Theorem default_passes_validation baseDir todoConfig o w manifest l w1 :
  heap w !! todoConfig = Some o →
  mergedConfig join baseDir todoConfig w = (Return (manifest, l), w1) →
  props_at w1 l = ∅ → manifest = JUndefined →
  (∃ l' w2,
     applyDefault manifest l w1 = (Return l', w2)
     ∧ heap w2 !! l' = Some default_daysToDecay
     ∧ checkOrder l' w2 = (Return l', w2))
  ∧ (∃ l' w',
       getTodoConfig join baseDir (Some todoConfig) w = (Return l', w')
       ∧ heap w' !! l' = Some default_daysToDecay).
Proof.
  intros Ho Hmerge Hempty ->.
  destruct (mergedConfig_run join baseDir todoConfig o w Ho)
    as (l0 & w0 & Hrun1 & _ & Hl1 & _).
  rewrite Hmerge in Hrun1. injection Hrun1 as Hm <- <-.
  unfold props_at in Hempty. rewrite Hl1 in Hempty. simpl in Hempty.
  rewrite <- Hm, Hempty in *.
  split.
  - destruct (applyDefault_run JUndefined l ∅ w1 Hl1)
      as (l' & w2 & Hrun2 & Hl2 & _ & _).
    exists l', w2. split; [done|]. split; [done|].
    by rewrite (checkOrder_run _ _ _ Hl2).
  - apply (getTodoConfig_returns join baseDir todoConfig o w _ Ho); [|done].
    by rewrite <- Hm, Hempty.
Qed.

End Resolution.

(** ** The world after a call *)

Lemma only_heap_ret {A} (a : A) : only_heap (ret a).
Proof. intros w. exists (heap w). by destruct w. Qed.

Lemma only_heap_throw {A} e : only_heap (@throw A e).
Proof. intros w. exists (heap w). by destruct w. Qed.

Lemma only_heap_bind {A B} (m : M A) (k : A → M B) :
  only_heap m → (∀ a, only_heap (k a)) → only_heap (bind m k).
Proof.
  intros Hm Hk w. unfold bind. destruct (Hm w) as [h Hh].
  destruct (m w) as [[a|e] w1]; simpl in Hh; subst w1.
  - destruct (Hk a (set_heap h w)) as [h' Hh']. exists h'. by rewrite Hh'.
  - by exists h.
Qed.

Lemma only_heap_new_object o : only_heap (new_object o).
Proof. intros w. by eexists. Qed.

Lemma only_heap_set_prop l k v : only_heap (set_prop l k v).
Proof. intros w. by eexists. Qed.

Lemma only_heap_get_prop l k : only_heap (get_prop l k).
Proof. intros w. exists (heap w). by destruct w. Qed.

Lemma only_heap_Object_keys l : only_heap (Object_keys l).
Proof. intros w. exists (heap w). by destruct w. Qed.

Lemma only_heap_process_env_get name : only_heap (process_env_get name).
Proof. intros w. exists (heap w). by destruct w. Qed.

Lemma only_heap_copy_all target sources : only_heap (copy_all target sources).
Proof.
  induction sources as [|s rest IH]; [apply only_heap_ret|].
  apply only_heap_bind; [|done]. intros w. by eexists.
Qed.

Lemma only_heap_Object_assign target sources :
  only_heap (Object_assign target sources).
Proof.
  apply only_heap_bind; [apply only_heap_copy_all|].
  intros _. apply only_heap_ret.
Qed.

Lemma only_heap_getEnvVar name : only_heap (getEnvVar name).
Proof.
  apply only_heap_bind; [apply only_heap_process_env_get|]. intros c.
  destruct (truthy (env_value c)); [|apply only_heap_ret].
  apply only_heap_bind; [apply only_heap_process_env_get|].
  intros [s|]; apply only_heap_ret.
Qed.

Lemma only_heap_getFromEnvVars : only_heap getFromEnvVars.
Proof.
  apply only_heap_bind; [apply only_heap_new_object|]. intros config.
  apply only_heap_bind; [apply only_heap_getEnvVar|]. intros warn.
  apply only_heap_bind; [apply only_heap_getEnvVar|]. intros error.
  apply only_heap_bind.
  { destruct (Number_isInteger warn);
      [apply only_heap_set_prop | apply only_heap_ret]. }
  intros _. apply only_heap_bind.
  { destruct (Number_isInteger error);
      [apply only_heap_set_prop | apply only_heap_ret]. }
  intros _. apply only_heap_ret.
Qed.

Lemma only_heap_applyDefault pkg l : only_heap (applyDefault pkg l).
Proof.
  apply only_heap_bind; [apply only_heap_Object_keys|]. intros keys.
  destruct (_ && _); [apply only_heap_new_object | apply only_heap_ret].
Qed.

Lemma only_heap_checkOrder l : only_heap (checkOrder l).
Proof.
  apply only_heap_bind; [apply only_heap_get_prop|]. intros warn.
  apply only_heap_bind; [apply only_heap_get_prop|]. intros error.
  destruct (_ && _); [apply only_heap_throw | apply only_heap_ret].
Qed.

Lemma loaded_set_heap request h w :
  loaded request (set_heap h w) = set_heap h (loaded request w).
Proof.
  unfold loaded. simpl.
  by destruct (module_cache w !! request), (files w !! request) as [[|?]|].
Qed.

Section WorldAfter.

Variable join : string → string → string.

(** Apart from the heap, a call changes the world as the one [require] of
    the manifest does. *)
Lemma getTodoConfig_world baseDir todoConfig w :
  ∃ h, (getTodoConfig join baseDir todoConfig w).2
       = set_heap h (loaded (join baseDir "package.json") w).
Proof.
  unfold getTodoConfig, bind at 1.
  assert (only_heap (match todoConfig with
                     | Some l => ret l
                     | None => new_object ∅
                     end)) as H0
    by (destruct todoConfig; [apply only_heap_ret | apply only_heap_new_object]).
  destruct (H0 w) as [h0 Hh0].
  destruct (match todoConfig with Some l => ret l | None => new_object ∅ end w)
    as [[l0|e] w0] eqn:E0; simpl in Hh0; subst w0.
  2: { destruct todoConfig; discriminate E0. }
  unfold bind at 1, mergedConfig, bind at 1.
  rewrite getFromPackageJson_run, loaded_set_heap.
  set (w1 := loaded (join baseDir "package.json") w).
  set (pkg := manifest_config join (set_heap h0 w) baseDir).
  assert (only_heap
    (let* daysToDecayEnvVars := getFromEnvVars in
     let* target := new_object ∅ in
     let* merged := Object_assign target
       [SVal pkg; SRef daysToDecayEnvVars; SRef l0] in
     let* r := ret (pkg, merged) in
     (let '(daysToDecayPackageConfig, merged) := r in
      let* merged := applyDefault daysToDecayPackageConfig merged in
      checkOrder merged))) as Hrest.
  { apply only_heap_bind; [apply only_heap_getFromEnvVars|]. intros le.
    apply only_heap_bind; [apply only_heap_new_object|]. intros target.
    apply only_heap_bind; [apply only_heap_Object_assign|]. intros merged.
    apply only_heap_bind; [apply only_heap_ret|]. intros [a b].
    apply only_heap_bind; [apply only_heap_applyDefault|]. intros l.
    apply only_heap_checkOrder. }
  destruct (Hrest (set_heap h0 w1)) as [h Hh]. exists h.
  change (set_heap h w1) with (set_heap h (set_heap h0 w1)).
  rewrite <- Hh. unfold bind.
  destruct (getFromEnvVars (set_heap h0 w1)) as [[le|e] w2]; [|done].
  destruct (new_object ∅ w2) as [[target|e] w3]; [|done].
  destruct (Object_assign target [SVal pkg; SRef le; SRef l0] w3)
    as [[merged|e] w4]; done.
Qed.

End WorldAfter.

(** ** The final configuration, by cases *)

Lemma defaulted_cases manifest (merged : gmap string JsValue) :
  (merged = ∅ ∧ manifest = JUndefined
   ∧ defaulted manifest merged = default_daysToDecay)
  ∨ ((merged ≠ ∅ ∨ manifest ≠ JUndefined) ∧ defaulted manifest merged = merged).
Proof.
  unfold defaulted. destruct (size merged =? 0)%nat eqn:Hs.
  - apply Nat.eqb_eq, map_size_empty_iff in Hs.
    destruct (TypeTag_eqb (typeof manifest) T_undefined) eqn:Ht.
    + apply typeof_undefined in Ht. by left.
    + right. split; [|done]. right. intros Hm.
      apply typeof_undefined in Hm. congruence.
  - right. split; [|done]. left. intros ->.
    by rewrite map_size_empty in Hs.
Qed.


Lemma lookup_merge3_last_of manifest env override k :
  merge3 manifest env override !! k = last_of manifest env override k.
Proof. apply lookup_merge3. Qed.


Lemma DaysToDecay_default : DaysToDecay default_daysToDecay.
Proof.
  intros k v [-> | ->] [= <-]; eexists; (split; [done|]); apply of_Z_is_integer.
Qed.

Lemma DaysToDecay_env_partial w : DaysToDecay (env_partial w).
Proof.
  assert (∀ v, Number_isInteger v = true →
               ∃ n, v = JNum n ∧ number_is_integer n = true) as Hnum.
  { intros [] ?; try done. eauto. }
  unfold env_partial, with_integer. intros k v Hk.
  destruct (Number_isInteger (env_var w "TODO_DAYS_TO_ERROR")) eqn:Ee,
           (Number_isInteger (env_var w "TODO_DAYS_TO_WARN")) eqn:Ew;
    destruct Hk as [-> | ->];
    rewrite ?lookup_insert_eq, ?lookup_insert_ne, ?lookup_empty by done;
    rewrite ?lookup_insert_eq, ?lookup_empty;
    try done; intros [= <-]; auto.
Qed.

Lemma env_partial_keys w k :
  is_Some (env_partial w !! k) → k = "warn" ∨ k = "error".
Proof.
  unfold env_partial, with_integer.
  destruct (Number_isInteger (env_var w "TODO_DAYS_TO_ERROR")),
           (Number_isInteger (env_var w "TODO_DAYS_TO_WARN"));
    intros [v Hv];
    repeat (apply lookup_insert_Some in Hv as [[<- _] | [_ Hv]]; [auto|]);
    by rewrite lookup_empty in Hv.
Qed.

(** The keys of the indexed properties of a string or an array are decimal
    numerals: neither [warn] nor [error] is one. *)
Lemma pretty_N_go_not_word (word : string) x s :
  (∀ c r, word = String c r → is_digit c = false) →
  s ≠ word → pretty_N_go x s ≠ word.
Proof.
  intros Hword. revert s. induction (N.lt_wf_0 x) as [x _ IH]; intros s Hs.
  destruct (decide (0 < x)%N) as [Hx|Hx].
  - rewrite pretty_N_go_step by done. apply IH.
    + by apply N.div_lt.
    + intros <-. specialize (Hword _ _ eq_refl).
      unfold pretty_N_char in Hword. by repeat case_match.
  - assert (x = 0%N) as -> by lia. by rewrite pretty_N_go_0.
Qed.

Lemma pretty_nat_not_word (word : string) (i : nat) :
  (∀ c r, word = String c r → is_digit c = false) →
  word ≠ "" → pretty i ≠ word.
Proof.
  intros Hword Hne. unfold pretty, pretty_nat, pretty, pretty_N.
  case_decide.
  - intros <-. by specialize (Hword _ _ eq_refl).
  - apply pretty_N_go_not_word; [done|]. by intros <-.
Qed.

Lemma indexed_not_word (word : string) l :
  (∀ c r, word = String c r → is_digit c = false) →
  word ≠ "" → indexed l !! word = None.
Proof.
  intros Hword Hne. unfold indexed. apply not_elem_of_list_to_map_1.
  intros ([k v] & Hk & Hin)%list_elem_of_fmap. simpl in Hk. subst k.
  apply elem_of_lookup_imap in Hin as (i & x & [= Hi _] & _).
  by apply (pretty_nat_not_word word i).
Qed.

Lemma own_props_non_object v k :
  k = "warn" ∨ k = "error" → (∀ props, v ≠ JObj props) →
  own_props v !! k = None.
Proof.
  intros Hk Hv.
  assert (∀ l, indexed l !! k = None) as Hl.
  { intros l. apply indexed_not_word.
    - intros c r E. destruct Hk; subst k; by injection E as <- _.
    - destruct Hk; by subst k. }
  destruct v; simpl; try done. by destruct (Hv props).
Qed.

Section FinalConfig.

Variable join : string → string → string.

Lemma final_config_ext wa wb baseDir todoConfig :
  loader_view wa (join baseDir "package.json")
  = loader_view wb (join baseDir "package.json") →
  env_partial wa = env_partial wb →
  override_props wa todoConfig = override_props wb todoConfig →
  final_config join wa baseDir todoConfig = final_config join wb baseDir todoConfig.
Proof.
  intros Hm He Ho. unfold final_config, manifest_config. by rewrite Hm, He, Ho.
Qed.

Lemma result_of_ext wa wb baseDir todoConfig :
  allocated wa todoConfig → allocated wb todoConfig →
  final_config join wa baseDir todoConfig = final_config join wb baseDir todoConfig →
  result_of (getTodoConfig join baseDir todoConfig wa)
  = result_of (getTodoConfig join baseDir todoConfig wb).
Proof. intros Ha Hb Hf. rewrite !result_of_getTodoConfig by done. by rewrite Hf. Qed.

Lemma getTodoConfig_returned baseDir todoConfig w r w' :
  allocated w todoConfig →
  getTodoConfig join baseDir todoConfig w = (Return r, w') →
  invalid_order (final_config join w baseDir todoConfig) = false
  ∧ heap w' !! r = Some (final_config join w baseDir todoConfig)
  ∧ heap w !! r = None
  ∧ extends w w'.
Proof.
  intros Ha Hret.
  destruct (getTodoConfig_run join baseDir todoConfig w Ha) as (w2 & Hx & Hrun).
  cbv zeta in Hrun.
  destruct (invalid_order (final_config join w baseDir todoConfig));
    [congruence|].
  destruct Hrun as (l & Hrun & Hf & Hl). rewrite Hret in Hrun.
  by injection Hrun as -> ->.
Qed.

Lemma getTodoConfig_extends baseDir todoConfig w :
  allocated w todoConfig →
  extends w (getTodoConfig join baseDir todoConfig w).2.
Proof.
  intros Ha.
  destruct (getTodoConfig_run join baseDir todoConfig w Ha) as (w2 & Hx & Hrun).
  cbv zeta in Hrun.
  destruct (invalid_order (final_config join w baseDir todoConfig)).
  - by rewrite Hrun.
  - by destruct Hrun as (l & -> & _).
Qed.

Lemma getFromPackageJson_value baseDir w manifest :
  (getFromPackageJson join baseDir w).1 = Return manifest →
  manifest = manifest_config join w baseDir.
Proof. rewrite getFromPackageJson_run. by intros [= <-]. Qed.

Lemma getFromEnvVars_value w le w1 :
  getFromEnvVars w = (Return le, w1) → props_at w1 le = env_partial w.
Proof.
  rewrite getFromEnvVars_run. intros [= <- <-].
  unfold props_at. simpl. by rewrite lookup_insert_eq.
Qed.

End FinalConfig.

(** ** Further properties of the module *)

Section Further.

Variable join : string → string → string.

(** X1. Options that hold both thresholds as Numbers decide the call,
    whatever the manifest and the environment hold: it throws the ordering
    error on these two values when [warn >= error], and otherwise returns a
    record with exactly these two thresholds. *)
Theorem complete_override_decides baseDir l o a b w :
  heap w !! l = Some o →
  o !! "warn" = Some (JNum a) → o !! "error" = Some (JNum b) →
  if number_ge a b
  then (getTodoConfig join baseDir (Some l) w).1
       = Throw (Error (invalid_values_message (JNum a) (JNum b)))
  else ∃ r w', getTodoConfig join baseDir (Some l) w = (Return r, w')
               ∧ props_at w' r !! "warn" = Some (JNum a)
               ∧ props_at w' r !! "error" = Some (JNum b).
Proof.
  intros Ho Ha Hb.
  destruct (getTodoConfig_run join baseDir (Some l) w) as (w' & _ & Hrun);
    [by exists o|].
  cbv zeta in Hrun.
  set (final := final_config join w baseDir (Some l)) in *.
  assert (final !! "warn" = Some (JNum a) ∧ final !! "error" = Some (JNum b))
    as [Hfa Hfb].
  { unfold final, final_config.
    set (merged := merge3 _ _ _).
    assert (merged !! "warn" = Some (JNum a)) as Hma.
    { unfold merged. rewrite lookup_merge3. simpl. unfold props_at.
      by rewrite Ho; simpl; rewrite Ha. }
    assert (merged !! "error" = Some (JNum b)) as Hmb.
    { unfold merged. rewrite lookup_merge3. simpl. unfold props_at.
      by rewrite Ho; simpl; rewrite Hb. }
    destruct (defaulted_cases (manifest_config join w baseDir) merged)
      as [(He & _) | (_ & ->)]; [|done].
    by rewrite He in Hma. }
  assert (invalid_order final = number_ge a b) as Hinv.
  { unfold invalid_order. by rewrite Hfa, Hfb. }
  rewrite Hinv, Hfa, Hfb in Hrun. simpl in Hrun.
  destruct (number_ge a b).
  - by rewrite Hrun.
  - destruct Hrun as (r & Hrun & _ & Hr). exists r, w'.
    unfold props_at. rewrite Hr. done.
Qed.


(** X3. Resolving is idempotent: a record that a call returned, handed in
    as the options of a second call on the same project, is returned again
    with the same properties, and the second call does not throw. *)
Theorem getTodoConfig_idempotent baseDir todoConfig w r w' :
  allocated w todoConfig →
  getTodoConfig join baseDir todoConfig w = (Return r, w') →
  result_of (getTodoConfig join baseDir (Some r) w') = Return (props_at w' r).
Proof.
  intros Halloc Hret.
  destruct (getTodoConfig_returned join _ _ _ _ _ Halloc Hret)
    as (Hvalid & Hr & _ & Hx).
  rewrite result_of_getTodoConfig by (simpl; eauto). cbv zeta.
  assert (final_config join w' baseDir (Some r)
          = final_config join w baseDir todoConfig) as ->.
  { unfold final_config at 1. simpl. unfold props_at. rewrite Hr. simpl.
    rewrite (extends_manifest_config join _ _ _ Hx), (extends_env_partial _ _ Hx).
    unfold final_config.
    set (m := manifest_config join w baseDir).
    set (o := override_props w todoConfig).
    set (rest := env_partial w ∪ own_props m).
    unfold merge3. fold rest.
    destruct (defaulted_cases m (o ∪ rest)) as [(He & Hu & ->) | (Hne & ->)].
    - pose proof (map_positive_l _ _ He) as Ho. rewrite Ho in He.
      rewrite (left_id_L ∅ (∪)) in He. rewrite He, (right_id_L ∅ (∪)).
      destruct (defaulted_cases m default_daysToDecay)
        as [(Hd & _) | (_ & ->)]; [|done].
      discriminate (f_equal (λ x : gmap string JsValue, x !! "warn") Hd).
    - assert ((o ∪ rest) ∪ rest = o ∪ rest) as ->.
      { by rewrite <- (assoc_L (∪)), (idemp_L (∪) rest). }
      by destruct (defaulted_cases m (o ∪ rest)) as [(He & Hu & _) | (_ & ->)];
        [destruct Hne|]. }
  rewrite Hvalid. unfold props_at. by rewrite Hr.
Qed.

(** X4. The type [DaysToDecay] is preserved: when the configuration of the
    manifest and the caller's options hold only integers in [warn] and
    [error], so does the returned record, and then [warn < error] whenever
    both are there. (The environment contributes integers only.) *)
Theorem getTodoConfig_typed baseDir todoConfig w manifest r w' :
  allocated w todoConfig →
  (getFromPackageJson join baseDir w).1 = Return manifest →
  DaysToDecay (own_props manifest) →
  DaysToDecay (override_props w todoConfig) →
  getTodoConfig join baseDir todoConfig w = (Return r, w') →
  DaysToDecay (props_at w' r)
  ∧ ∀ a b, props_at w' r !! "warn" = Some (JNum a) →
           props_at w' r !! "error" = Some (JNum b) →
           number_lt a b = true.
Proof.
  intros Halloc Hm Htm Hto Hret.
  apply getFromPackageJson_value in Hm. subst manifest.
  destruct (getTodoConfig_returned join _ _ _ _ _ Halloc Hret)
    as (Hvalid & Hr & _ & _).
  unfold props_at. rewrite Hr. simpl.
  set (final := final_config join w baseDir todoConfig) in *.
  assert (DaysToDecay final) as Htyped.
  { unfold final, final_config.
    destruct (defaulted_cases (manifest_config join w baseDir)
                (merge3 (own_props (manifest_config join w baseDir))
                   (env_partial w) (override_props w todoConfig)))
      as [(_ & _ & ->) | (_ & ->)]; [apply DaysToDecay_default|].
    intros k v Hk. rewrite lookup_merge3.
    destruct (override_props w todoConfig !! k) as [vo|] eqn:Eo.
    { intros [= <-]. by apply (Hto k). }
    destruct (env_partial w !! k) as [ve|] eqn:Ee.
    { intros [= <-]. by apply (DaysToDecay_env_partial w k). }
    by apply Htm. }
  split; [done|]. intros a b Ha Hb.
  destruct (Htyped "warn" _ (or_introl eq_refl) Ha) as (a' & [= <-] & Hia).
  destruct (Htyped "error" _ (or_intror eq_refl) Hb) as (b' & [= <-] & Hib).
  apply number_ge_false_lt; [by apply number_is_integer_not_NaN..|].
  destruct (number_ge a b) eqn:Hge; [|done].
  assert (invalid_order final = true); [|congruence].
  apply invalid_order_spec. eauto.
Qed.

(** X5. What a call leaves behind, whether it returns or throws: every
    object that existed is as it was, the files and the environment are the
    same, and [require]'s cache differs at most at the manifest's path,
    where it now holds what [require] yielded for the manifest (nothing
    when loading failed). *)
Theorem getTodoConfig_frame baseDir todoConfig w :
  allocated w todoConfig →
  let w' := (getTodoConfig join baseDir todoConfig w).2 in
  let manifest := join baseDir "package.json" in
  (∀ l o, heap w !! l = Some o → heap w' !! l = Some o)
  ∧ files w' = files w
  ∧ process_env w' = process_env w
  ∧ (∀ request, request ≠ manifest →
                module_cache w' !! request = module_cache w !! request)
  ∧ module_cache w' !! manifest = loader_view w manifest.
Proof.
  intros Halloc w' manifest.
  destruct (getTodoConfig_extends join baseDir todoConfig w Halloc)
    as [Hh Hf He _]. fold w' in Hh, Hf, He.
  destruct (getTodoConfig_world join baseDir todoConfig w) as [h Hw'].
  fold w' manifest in Hw'.
  split; [done|]. split; [done|]. split; [done|].
  rewrite Hw'. simpl. unfold loaded, loader_view.
  destruct (module_cache w !! manifest) as [e|] eqn:Ec.
  { by rewrite Ec. }
  destruct (files w !! manifest) as [[|e]|]; simpl; rewrite ?Ec; try done.
  split; [|by rewrite lookup_insert_eq].
  intros request Hne. by rewrite lookup_insert_ne.
Qed.

(** X6. The manifest is read once: after a call for which [require]
    yielded the manifest, a later call gives the same result whatever has
    become of the files in between. A failed load is not remembered: after
    it, a later call reads the files as they are then. *)
Theorem manifest_read_once baseDir todoConfig w files' :
  allocated w todoConfig →
  let first := getTodoConfig join baseDir todoConfig w in
  let again := getTodoConfig join baseDir todoConfig (set_files files' first.2) in
  (is_Some (loader_view w (join baseDir "package.json")) →
   result_of again = result_of first)
  ∧ (loader_view w (join baseDir "package.json") = None →
     result_of again
     = result_of (getTodoConfig join baseDir todoConfig (set_files files' w))).
Proof.
  intros Halloc first again.
  pose proof (getTodoConfig_extends join baseDir todoConfig w Halloc) as Hx.
  fold first in Hx.
  destruct (getTodoConfig_world join baseDir todoConfig w) as [h Hw'].
  fold first in Hw'.
  destruct (extends_allocated _ _ _ Hx Halloc) as [Ha' Ho'].
  assert (allocated (set_files files' first.2) todoConfig) as Ha2
    by (by destruct todoConfig).
  assert (allocated (set_files files' w) todoConfig) as Ha3
    by (by destruct todoConfig).
  assert (env_partial (set_files files' first.2) = env_partial w) as He.
  { unfold env_partial, env_var. simpl. by rewrite (ext_env _ _ Hx). }
  split.
  - intros [pkg Hpkg].
    unfold again. rewrite (result_of_ext join _ first.2); [|done..|].
    { rewrite (result_of_ext join first.2 w); [done..|].
      apply final_config_ext; [apply Hx | by apply extends_env_partial | done]. }
    apply final_config_ext; [| by rewrite He, (extends_env_partial _ _ Hx) | done].
    rewrite (ext_loader _ _ Hx), Hpkg.
    unfold loader_view. simpl. rewrite Hw'. simpl.
    unfold loader_view, loaded in *.
    destruct (module_cache w !! join baseDir "package.json") as [e|] eqn:Ec.
    { by rewrite Ec. }
    destruct (files w !! join baseDir "package.json") as [[|e]|]; try done.
    simpl. by rewrite lookup_insert_eq.
  - intros Hnone. unfold again. apply result_of_ext; [done..|].
    apply final_config_ext; [|done|done].
    unfold loader_view. simpl. rewrite Hw'. simpl.
    unfold loader_view, loaded in *.
    destruct (module_cache w !! join baseDir "package.json") as [e|] eqn:Ec;
      [done|].
    destruct (files w !! join baseDir "package.json") as [[|e]|]; try done;
      simpl; by rewrite Ec.
Qed.

(** X7. The environment is read at every call: nothing of it is remembered.
    After a call, a call in a changed environment gives what it would have
    given had the first call not been made. *)
Theorem environment_read_each_call baseDir todoConfig w env' :
  allocated w todoConfig →
  let first := getTodoConfig join baseDir todoConfig w in
  result_of (getTodoConfig join baseDir todoConfig (set_process_env env' first.2))
  = result_of (getTodoConfig join baseDir todoConfig (set_process_env env' w)).
Proof.
  intros Halloc first.
  pose proof (getTodoConfig_extends join baseDir todoConfig w Halloc) as Hx.
  fold first in Hx.
  destruct (extends_allocated _ _ _ Hx Halloc) as [Ha' Ho'].
  apply result_of_ext; [by destruct todoConfig..|].
  apply final_config_ext; [|done|done].
  pose proof (ext_loader _ _ Hx (join baseDir "package.json")) as Hl.
  unfold loader_view in *. simpl.
  rewrite (ext_files _ _ Hx) in Hl |- *. exact Hl.
Qed.

(** X8. What [getFromEnvVars] returns is a new object with no property
    other than [warn] and [error], each an integer when it is there (a
    [DaysToDecay], as the function is annotated); making that object is the
    only change to the world. *)
Theorem getFromEnvVars_record w :
  ∃ le env,
    getFromEnvVars w = (Return le, set_heap (<[le := env]> (heap w)) w)
    ∧ heap w !! le = None
    ∧ DaysToDecay env
    ∧ ∀ k, is_Some (env !! k) → k = "warn" ∨ k = "error".
Proof.
  exists (fresh (dom (heap w))), (env_partial w).
  split; [apply getFromEnvVars_run|]. split; [apply fresh_heap_None|].
  split; [apply DaysToDecay_env_partial | apply env_partial_keys].
Qed.

(** X9. The manifest matters only through [lintTodo.daysToDecay]: two
    projects for which [getFromPackageJson] yields the same value, with the
    same two environment variables and the same options, get the same
    result. In particular a manifest without that entry is treated as a
    missing or unreadable manifest is. *)
Theorem manifest_only_through_config baseDir1 baseDir2 todoConfig w1 w2 :
  allocated w1 todoConfig → allocated w2 todoConfig →
  (getFromPackageJson join baseDir1 w1).1 = (getFromPackageJson join baseDir2 w2).1 →
  process_env w1 !! "TODO_DAYS_TO_WARN" = process_env w2 !! "TODO_DAYS_TO_WARN" →
  process_env w1 !! "TODO_DAYS_TO_ERROR" = process_env w2 !! "TODO_DAYS_TO_ERROR" →
  override_props w1 todoConfig = override_props w2 todoConfig →
  result_of (getTodoConfig join baseDir1 todoConfig w1)
  = result_of (getTodoConfig join baseDir2 todoConfig w2).
Proof.
  intros Ha1 Ha2 Hm Hw He Ho.
  rewrite !getFromPackageJson_run in Hm. simpl in Hm. injection Hm as Hm.
  rewrite !result_of_getTodoConfig by done.
  unfold final_config. by rewrite Hm, Ho, (env_partial_ext w1 w2).
Qed.

(** X10. A manifest configuration that is not an object ([null], a boolean,
    a number, a string, an array) contributes no threshold, and, not being
    [undefined], keeps the default away: the thresholds of the returned
    record are those of the environment and of the options, and there are
    none when these have none. *)
Theorem non_object_manifest_config baseDir todoConfig w manifest le w1 r w' k :
  allocated w todoConfig →
  (getFromPackageJson join baseDir w).1 = Return manifest →
  manifest ≠ JUndefined → (∀ props, manifest ≠ JObj props) →
  getFromEnvVars w = (Return le, w1) →
  getTodoConfig join baseDir todoConfig w = (Return r, w') →
  k = "warn" ∨ k = "error" →
  props_at w' r !! k = last_of ∅ (props_at w1 le) (override_props w todoConfig) k.
Proof.
  intros Halloc Hm Hdef Hobj He Hret Hk.
  apply getFromPackageJson_value in Hm.
  apply getFromEnvVars_value in He. rewrite He.
  destruct (getTodoConfig_returned join _ _ _ _ _ Halloc Hret)
    as (_ & Hr & _ & _).
  unfold props_at. rewrite Hr. simpl. unfold final_config. rewrite <- Hm.
  destruct (defaulted_cases manifest
              (merge3 (own_props manifest) (env_partial w)
                 (override_props w todoConfig)))
    as [(_ & Hu & _) | (_ & ->)]; [done|].
  rewrite lookup_merge3_last_of. unfold last_of.
  by rewrite (own_props_non_object manifest k), lookup_empty.
Qed.


(** X12. The returned record is the caller's to change: whatever is written
    over it afterwards, the same call gives the same configuration again.
    Neither the default nor anything the module keeps is shared with a
    record it has returned. *)
Theorem returned_record_not_shared baseDir todoConfig w r w' o' :
  allocated w todoConfig →
  getTodoConfig join baseDir todoConfig w = (Return r, w') →
  result_of (getTodoConfig join baseDir todoConfig
               (set_heap (<[r := o']> (heap w')) w'))
  = Return (props_at w' r).
Proof.
  intros Halloc Hret.
  destruct (getTodoConfig_returned join _ _ _ _ _ Halloc Hret)
    as (Hvalid & Hr & Hfresh & Hx).
  assert (extends w (set_heap (<[r := o']> (heap w')) w')) as Hx'.
  { destruct Hx as [Hh Hf He Hl]. split; [|done..].
    intros l o Hl0. simpl. rewrite lookup_insert_ne by (intros ->; congruence).
    by apply Hh. }
  destruct (extends_allocated _ _ _ Hx' Halloc) as [Ha' Ho'].
  rewrite (result_of_ext join _ w); [|done..|].
  - rewrite result_of_getTodoConfig by done. cbv zeta. rewrite Hvalid.
    unfold props_at. by rewrite Hr.
  - apply final_config_ext; [apply Hx' | by apply extends_env_partial | done].
Qed.

End Further.

(** ** The theorems on sample worlds *)




Lemma returned_record_ordered_witness :
  let manifest := JObj {[ "warn" := JNum (of_Z 5); "error" := JNum (of_Z 10) ]} in
  let w := project {[ "error" := JNum (of_Z 20) ]} (Some manifest)
             {[ "TODO_DAYS_TO_WARN" := "7" ]} in
  let run := getTodoConfig posix_join "/proj" (Some 1%positive) w in
  run.1 = Return 3%positive
  ∧ heap run.2 !! 3%positive
    = Some {[ "warn" := JNum (of_Z 7); "error" := JNum (of_Z 20) ]}
  ∧ number_lt (of_Z 7) (of_Z 20) = true.
Proof.
  intros manifest w run.
  assert (Halloc : allocated w (Some 1%positive))
    by (exists {[ "error" := JNum (of_Z 20) ]}; vm_compute; reflexivity).
  assert (Hret : getTodoConfig posix_join "/proj" (Some 1%positive) w
                 = (Return 3%positive, run.2)) by (vm_compute; reflexivity).
  assert (Hl : heap run.2 !! 3%positive
               = Some {[ "warn" := JNum (of_Z 7); "error" := JNum (of_Z 20) ]})
    by (vm_compute; reflexivity).
  destruct (returned_record_ordered posix_join "/proj" (Some 1%positive) w
              3%positive run.2 Halloc Hret) as (o & Ho & Hlt & _).
  rewrite Hl in Ho. injection Ho as <-.
  split; [vm_compute; reflexivity|]. split; [exact Hl|].
  apply Hlt; [|vm_compute; reflexivity..].
  intros k v [-> | ->] [= <-]; eexists; split; reflexivity.
Defined.




Lemma getTodoConfig_deterministic_witness :
  let manifest := package_json (JObj {[ "warn" := JNum (of_Z 5) ]}) in
  let w1 := mkWorld {[ 1%positive := {[ "error" := JNum (of_Z 20) ]} ]} ∅
              {[ "/proj/package.json" := Json manifest ]}
              {[ "TODO_DAYS_TO_WARN" := "7" ]} in
  let w2 := mkWorld {[ 1%positive := {[ "error" := JNum (of_Z 20) ]};
                       2%positive := {[ "warn" := JNum (of_Z 1) ]} ]}
              {[ "/proj/package.json" := manifest ]}
              {[ "/proj/package.json" := Malformed ]}
              {[ "TODO_DAYS_TO_WARN" := "7"; "HOME" := "/root" ]} in
  result_of (getTodoConfig posix_join "/proj" (Some 1%positive) w1)
  = result_of (getTodoConfig posix_join "/proj" (Some 1%positive) w2)
  ∧ result_of (getTodoConfig posix_join "/proj" (Some 1%positive)
                 (getTodoConfig posix_join "/proj" (Some 1%positive) w1).2)
    = result_of (getTodoConfig posix_join "/proj" (Some 1%positive) w1).
Proof.
  intros manifest w1 w2.
  assert (Ha1 : allocated w1 (Some 1%positive))
    by (exists {[ "error" := JNum (of_Z 20) ]}; vm_compute; reflexivity).
  assert (Ha2 : allocated w2 (Some 1%positive))
    by (exists {[ "error" := JNum (of_Z 20) ]}; vm_compute; reflexivity).
  destruct (getTodoConfig_deterministic posix_join "/proj" (Some 1%positive)
              w1 w2 Ha1 Ha2)
    as (Hsame & Hagain & _); try (vm_compute; reflexivity).
  split; [exact Hsame | exact Hagain].
Defined.

Lemma getTodoConfig_returns_record_witness :
  let w := project ∅ None ∅ in
  let run := getTodoConfig posix_join "/proj" None w in
  ∃ l o, run.1 = Return l ∧ heap run.2 !! l = Some o ∧ heap w !! l = None.
Proof.
  intros w run.
  assert (Hrun : run.1 = Return 5%positive) by (vm_compute; reflexivity).
  apply (getTodoConfig_returns_record posix_join "/proj" None w).
  - exact I.
  - intros message H. fold run in H. rewrite Hrun in H. discriminate H.
Defined.

Lemma override_unchanged_witness :
  let o := {[ "warn" := JNum (of_Z 10); "error" := JNum (of_Z 5) ]} in
  let w := project o None ∅ in
  let run := getTodoConfig posix_join "/proj" (Some 1%positive) w in
  (∃ message, run.1 = Throw (Error message)) ∧ heap run.2 !! 1%positive = Some o.
Proof.
  intros o w run.
  assert (Ho : heap w !! 1%positive = Some o) by (vm_compute; reflexivity).
  destruct (override_unchanged posix_join "/proj" 1%positive o w run.1 run.2 Ho)
    as (Hsame & _); [apply surjective_pairing|].
  split; [|exact Hsame]. eexists. vm_compute. reflexivity.
Defined.

Lemma default_passes_validation_witness :
  let w := project ∅ None ∅ in
  ∃ l' w',
    getTodoConfig posix_join "/proj" (Some 1%positive) w = (Return l', w')
    ∧ heap w' !! l' = Some default_daysToDecay.
Proof.
  intros w.
  assert (Ho : heap w !! 1%positive = Some ∅) by (vm_compute; reflexivity).
  assert (Hc : ∃ w1, mergedConfig posix_join "/proj" 1%positive w
                     = (Return (JUndefined, 3%positive), w1)
                     ∧ props_at w1 3%positive = ∅)
    by (eexists; split; vm_compute; reflexivity).
  destruct Hc as (w1 & Hc & Hempty).
  destruct (default_passes_validation posix_join "/proj" 1%positive ∅ w
              JUndefined 3%positive w1 Ho Hc Hempty eq_refl)
    as (_ & Hcall).
  exact Hcall.
Defined.

(** ** The further properties on sample worlds *)

Lemma complete_override_decides_witness :
  let manifest := JObj {[ "warn" := JNum (of_Z 50); "error" := JNum (of_Z 5) ]} in
  let o := {[ "warn" := JNum (of_Z 10); "error" := JNum (of_Z 20) ]} in
  let w := project o (Some manifest) {[ "TODO_DAYS_TO_WARN" := "99" ]} in
  ∃ r w', getTodoConfig posix_join "/proj" (Some 1%positive) w = (Return r, w')
          ∧ props_at w' r !! "warn" = Some (JNum (of_Z 10))
          ∧ props_at w' r !! "error" = Some (JNum (of_Z 20)).
Proof.
  intros manifest o w.
  assert (Ho : heap w !! 1%positive = Some o) by (vm_compute; reflexivity).
  assert (Ha : o !! "warn" = Some (JNum (of_Z 10))) by (vm_compute; reflexivity).
  assert (Hb : o !! "error" = Some (JNum (of_Z 20))) by (vm_compute; reflexivity).
  assert (Hge : number_ge (of_Z 10) (of_Z 20) = false) by (vm_compute; reflexivity).
  pose proof (complete_override_decides posix_join "/proj" 1%positive o
                (of_Z 10) (of_Z 20) w Ho Ha Hb) as H.
  rewrite Hge in H. exact H.
Defined.


Lemma getTodoConfig_idempotent_witness :
  let manifest := JObj {[ "warn" := JNum (of_Z 5); "error" := JNum (of_Z 10) ]} in
  let w := project {[ "error" := JNum (of_Z 20) ]} (Some manifest)
             {[ "TODO_DAYS_TO_WARN" := "7" ]} in
  let run := getTodoConfig posix_join "/proj" (Some 1%positive) w in
  run.1 = Return 3%positive
  ∧ result_of (getTodoConfig posix_join "/proj" (Some 3%positive) run.2)
    = Return {[ "warn" := JNum (of_Z 7); "error" := JNum (of_Z 20) ]}.
Proof.
  intros manifest w run.
  assert (Halloc : allocated w (Some 1%positive))
    by (exists {[ "error" := JNum (of_Z 20) ]}; vm_compute; reflexivity).
  assert (Hret : getTodoConfig posix_join "/proj" (Some 1%positive) w
                 = (Return 3%positive, run.2)) by (vm_compute; reflexivity).
  split; [vm_compute; reflexivity|].
  rewrite (getTodoConfig_idempotent posix_join "/proj" (Some 1%positive) w
             3%positive run.2 Halloc Hret).
  vm_compute. reflexivity.
Defined.

Lemma getTodoConfig_typed_witness :
  let manifest := JObj {[ "warn" := JNum (of_Z 5); "error" := JNum (of_Z 10) ]} in
  let w := project {[ "error" := JNum (of_Z 20) ]} (Some manifest)
             {[ "TODO_DAYS_TO_WARN" := "7" ]} in
  let run := getTodoConfig posix_join "/proj" (Some 1%positive) w in
  run.1 = Return 3%positive
  ∧ DaysToDecay (props_at run.2 3%positive)
  ∧ number_lt (of_Z 7) (of_Z 20) = true.
Proof.
  intros manifest w run.
  assert (Halloc : allocated w (Some 1%positive))
    by (exists {[ "error" := JNum (of_Z 20) ]}; vm_compute; reflexivity).
  assert (Hm : (getFromPackageJson posix_join "/proj" w).1 = Return manifest)
    by (vm_compute; reflexivity).
  assert (Hret : getTodoConfig posix_join "/proj" (Some 1%positive) w
                 = (Return 3%positive, run.2)) by (vm_compute; reflexivity).
  assert (Ho : override_props w (Some 1%positive) = {[ "error" := JNum (of_Z 20) ]})
    by (vm_compute; reflexivity).
  destruct (getTodoConfig_typed posix_join "/proj" (Some 1%positive) w manifest
              3%positive run.2 Halloc Hm) as (Htyped & Hlt).
  - intros k v [-> | ->] [= <-]; eexists; split; reflexivity.
  - rewrite Ho. intros k v [-> | ->] [= <-]. eexists; split; reflexivity.
  - exact Hret.
  - split; [vm_compute; reflexivity|]. split; [exact Htyped|].
    apply Hlt; vm_compute; reflexivity.
Defined.

Lemma getTodoConfig_frame_witness :
  let manifest := JObj {[ "warn" := JNum (of_Z 5) ]} in
  let w := project ∅ (Some manifest) ∅ in
  let run := getTodoConfig posix_join "/proj" (Some 1%positive) w in
  module_cache w = ∅
  ∧ module_cache run.2 !! posix_join "/proj" "package.json"
    = Some (package_json manifest)
  ∧ module_cache run.2 !! "/proj/node_modules/x/package.json" = None
  ∧ heap run.2 !! 1%positive = Some ∅
  ∧ files run.2 = files w.
Proof.
  intros manifest w run.
  assert (Halloc : allocated w (Some 1%positive))
    by (exists ∅; vm_compute; reflexivity).
  destruct (getTodoConfig_frame posix_join "/proj" (Some 1%positive) w Halloc)
    as (Hh & Hf & _ & Hother & Hm).
  split; [reflexivity|]. split; [exact Hm|].
  split; [rewrite Hother; [reflexivity | discriminate]|].
  split; [apply Hh; vm_compute; reflexivity | exact Hf].
Defined.

Lemma manifest_read_once_witness :
  let w := project ∅
             (Some (JObj {[ "warn" := JNum (of_Z 5); "error" := JNum (of_Z 10) ]})) ∅ in
  let files' : gmap string ManifestFile :=
    {[ "/proj/package.json" :=
         Json (package_json
                 (JObj {[ "warn" := JNum (of_Z 1); "error" := JNum (of_Z 2) ]})) ]} in
  let first := getTodoConfig posix_join "/proj" (Some 1%positive) w in
  result_of (getTodoConfig posix_join "/proj" (Some 1%positive)
               (set_files files' first.2))
  = Return {[ "warn" := JNum (of_Z 5); "error" := JNum (of_Z 10) ]}
  ∧ result_of (getTodoConfig posix_join "/proj" (Some 1%positive)
                 (set_files files' w))
    = Return {[ "warn" := JNum (of_Z 1); "error" := JNum (of_Z 2) ]}.
Proof.
  intros w files' first.
  assert (Halloc : allocated w (Some 1%positive))
    by (exists ∅; vm_compute; reflexivity).
  destruct (manifest_read_once posix_join "/proj" (Some 1%positive) w files' Halloc)
    as (Hsome & _).
  split; [|vm_compute; reflexivity].
  fold first in Hsome. rewrite Hsome.
  - vm_compute. reflexivity.
  - eexists. vm_compute. reflexivity.
Defined.

Lemma environment_read_each_call_witness :
  let w := project ∅ None ∅ in
  let env' : gmap string string := {[ "TODO_DAYS_TO_WARN" := "7" ]} in
  let first := getTodoConfig posix_join "/proj" (Some 1%positive) w in
  result_of first = Return default_daysToDecay
  ∧ result_of (getTodoConfig posix_join "/proj" (Some 1%positive)
                 (set_process_env env' first.2))
    = Return {[ "warn" := JNum (of_Z 7) ]}.
Proof.
  intros w env' first.
  assert (Halloc : allocated w (Some 1%positive))
    by (exists ∅; vm_compute; reflexivity).
  split; [vm_compute; reflexivity|].
  unfold first.
  rewrite (environment_read_each_call posix_join "/proj" (Some 1%positive) w env'
             Halloc).
  vm_compute. reflexivity.
Defined.

Lemma manifest_only_through_config_witness :
  let w1 := mkWorld {[ 1%positive := ∅ ]} ∅
              {[ "/proj/package.json" := Json (JObj {[ "name" := JStr "app" ]}) ]} ∅ in
  let w2 := project ∅ None ∅ in
  result_of (getTodoConfig posix_join "/proj" (Some 1%positive) w1)
  = result_of (getTodoConfig posix_join "/proj" (Some 1%positive) w2)
  ∧ result_of (getTodoConfig posix_join "/proj" (Some 1%positive) w2)
    = Return default_daysToDecay.
Proof.
  intros w1 w2.
  assert (Ha1 : allocated w1 (Some 1%positive))
    by (exists ∅; vm_compute; reflexivity).
  assert (Ha2 : allocated w2 (Some 1%positive))
    by (exists ∅; vm_compute; reflexivity).
  split; [|vm_compute; reflexivity].
  apply (manifest_only_through_config posix_join "/proj" "/proj"
           (Some 1%positive) w1 w2 Ha1 Ha2); vm_compute; reflexivity.
Defined.

Lemma non_object_manifest_config_witness :
  let w := project ∅ (Some (JStr "30")) {[ "TODO_DAYS_TO_WARN" := "7" ]} in
  let run := getTodoConfig posix_join "/proj" (Some 1%positive) w in
  run.1 = Return 3%positive
  ∧ props_at run.2 3%positive !! "warn" = Some (JNum (of_Z 7))
  ∧ props_at run.2 3%positive !! "error" = None.
Proof.
  intros w run.
  assert (Halloc : allocated w (Some 1%positive))
    by (exists ∅; vm_compute; reflexivity).
  assert (Hm : (getFromPackageJson posix_join "/proj" w).1 = Return (JStr "30"))
    by (vm_compute; reflexivity).
  assert (Hret : getTodoConfig posix_join "/proj" (Some 1%positive) w
                 = (Return 3%positive, run.2)) by (vm_compute; reflexivity).
  assert (He : getFromEnvVars w = (Return 2%positive, (getFromEnvVars w).2))
    by (vm_compute; reflexivity).
  assert (Hk : ∀ k, k = "warn" ∨ k = "error" →
               props_at run.2 3%positive !! k
               = last_of ∅ (props_at (getFromEnvVars w).2 2%positive)
                   (override_props w (Some 1%positive)) k).
  { intros k. apply (non_object_manifest_config posix_join "/proj"
                       (Some 1%positive) w (JStr "30") 2%positive
                       (getFromEnvVars w).2 3%positive run.2 k Halloc Hm);
      [discriminate | discriminate | exact He | exact Hret]. }
  split; [vm_compute; reflexivity|]. split.
  - rewrite Hk by (left; reflexivity). vm_compute. reflexivity.
  - rewrite Hk by (right; reflexivity). vm_compute. reflexivity.
Defined.


Lemma returned_record_not_shared_witness :
  let w := project ∅ None ∅ in
  let run := getTodoConfig posix_join "/proj" (Some 1%positive) w in
  run.1 = Return 4%positive
  ∧ result_of (getTodoConfig posix_join "/proj" (Some 1%positive)
                 (set_heap (<[4%positive := {[ "warn" := JNum (of_Z 1) ]}]>
                              (heap run.2)) run.2))
    = Return default_daysToDecay.
Proof.
  intros w run.
  assert (Halloc : allocated w (Some 1%positive))
    by (exists ∅; vm_compute; reflexivity).
  assert (Hret : getTodoConfig posix_join "/proj" (Some 1%positive) w
                 = (Return 4%positive, run.2)) by (vm_compute; reflexivity).
  split; [vm_compute; reflexivity|].
  rewrite (returned_record_not_shared posix_join "/proj" (Some 1%positive) w
             4%positive run.2 _ Halloc Hret).
  vm_compute. reflexivity.
Defined.

(** ** Numbers beyond the exact range *)

(** [to_Number] agrees with the binary64 rounding of the Standard Library's
    specification of IEEE-754 ([prec = 53], [emax = 1024]) on a sample of
    integers around the boundaries. *)
Example to_Number_is_binary64 :
  forallb agrees_with_binary64
    [0; 1; -1; 30; 60; 2 ^ 53 - 1; 2 ^ 53; 2 ^ 53 + 1; 2 ^ 53 + 2; 2 ^ 53 + 3;
     - (2 ^ 53 + 1); - (2 ^ 53 + 3); 2 ^ 54 + 2; 2 ^ 54 + 6; 10 ^ 22; 10 ^ 23;
     10 ^ 25 + 12345; 3 ^ 200; - 7 ^ 300; 2 ^ 100 + 2 ^ 47; 2 ^ 100 + 2 ^ 47 + 1;
     2 ^ 1024 - 2 ^ 970 - 1; 2 ^ 1024 - 2 ^ 970; 2 ^ 1024 - 1; 2 ^ 1024;
     - (2 ^ 1024 - 2 ^ 970); 10 ^ 308; 10 ^ 309; - 10 ^ 400]
  = true.
Proof. vm_compute. reflexivity. Qed.

(** Past [2^53] the parse is the nearest Number, still an integer. *)
Example parseInt_rounds :
  Number_parseInt "9007199254740993" = of_Z 9007199254740992.
Proof. vm_compute. reflexivity. Qed.
